(** * The blotter registry of zipline/finance/blotter/core.py

    [_make_blotters_core] closes over one dictionary, [_blotters], and
    returns a read-only proxy on it together with the three functions
    [register], [unregister] and [load].  The dictionary is modelled as a
    [gmap string pyobj]; the three functions are programs over a small set
    of atomic dictionary accesses, one per access the source performs, and
    are given a sequential semantics ([run]) and, further down, an
    interleaved one. *)

From stdpp Require Import gmap strings list fin_maps sorting.

(** ** Python values that can reach the registry *)

(** A class object.  [cls_id] is the identity of the object, [cls_mro] the
    identities found in its [__mro__] (the class itself and all its bases),
    [cls_abstractmethods] its [__abstractmethods__]: a class with a
    non-empty set is a partial implementation and cannot be instantiated. *)
Record pyclass : Type := PyClass {
  cls_id : positive;
  cls_mro : list positive;
  cls_abstractmethods : list string
}.

Global Instance pyclass_eq_dec : EqDecision pyclass.
Proof. solve_decision. Defined.

(** The values passed as [blotter_class] or returned by [register].  Equality
    of two [pyobj] is identity of the objects: a copy of a class would carry
    another [cls_id], a copy of an instance another [oid]. *)
Inductive pyobj : Type :=
  | PyNone
  | PyType (c : pyclass)
  | PyInstance (oid : positive)
  | PyPartialRegister (name : string).

Global Instance pyobj_eq_dec : EqDecision pyobj.
Proof. solve_decision. Defined.

(** Modelled from the spec: the abstract capability [Blotter] (the Entry
    Contract) is imported from zipline.finance.blotter.blotter, another
    module.  Only the identity of that class object matters to the
    registry. *)
Definition Blotter : positive := 1%positive.

(** The root of every MRO. *)
Definition object : positive := 2%positive.

(** The texts of the exceptions, with the values that are formatted into
    them kept as arguments. *)
Inductive message : Type :=
  | already_registered (name : string)
      (* 'blotter class %r is already registered' % name *)
  | not_a_subclass_of_Blotter
      (* "The class specified is not a subclass of Blotter" *)
  | was_not_already_registered (name : string)
      (* 'blotter class %r was not already registered' % name *)
  | no_blotter_class_registered (name : string) (options : list string)
      (* 'no blotter class registered as %r, options are: %r'
         % (name, sorted(_blotters)) *)
  | issubclass_arg_1_must_be_a_class
      (* raised by the builtin issubclass itself *)
  | takes_at_most_2_arguments
      (* raised by the call protocol on a surplus positional argument *).

(** What was attempted on the read-only view. *)
Inductive view_mutation : Type := item_assignment | item_deletion.

(** The exceptions in play.  [KeyError] comes from the dictionary and is
    caught inside [unregister] and [load]; [ImmutableViolation] is the error
    of the read-only view (see below). *)
Inductive exn : Type :=
  | ValueError (msg : message)
  | TypeError (msg : message)
  | KeyError (key : string)
  | ImmutableViolation (what : view_mutation).

Global Instance message_eq_dec : EqDecision message.
Proof. solve_decision. Defined.
Global Instance view_mutation_eq_dec : EqDecision view_mutation.
Proof. solve_decision. Defined.
Global Instance exn_eq_dec : EqDecision exn.
Proof. solve_decision. Defined.

Inductive outcome (A : Type) : Type :=
  | Return (a : A)
  | Raise (e : exn).
Arguments Return {A} a.
Arguments Raise {A} e.

(** ** Builtins *)

(** [x is None] *)
Definition is_None (x : pyobj) : bool :=
  match x with PyNone => true | _ => false end.

(** [issubclass(x, base)]: whether [base] occurs in the MRO of the class
    [x]; a [TypeError] when [x] is not a class. *)
Definition issubclass (x : pyobj) (base : positive) : outcome bool :=
  match x with
  | PyType c => Return (bool_decide (base ∈ cls_mro c))
  | _ => Raise (TypeError issubclass_arg_1_must_be_a_class)
  end.

(** [sorted] on a list of strings: the non-decreasing arrangement of the
    list under the lexicographic order of strings. *)
Definition sorted (l : list string) : list string := merge_sort String.le l.

(** ** Atomic accesses to [_blotters] *)

Inductive dictop : Type -> Type :=
  | Contains (name : string) : dictop bool            (* name in _blotters *)
  | SetItem (name : string) (v : pyobj) : dictop unit (* _blotters[name] = v *)
  | DelItem (name : string) : dictop unit             (* del _blotters[name] *)
  | GetItem (name : string) : dictop pyobj            (* _blotters[name] *)
  | Keys : dictop (list string).                      (* list(_blotters) *)

(** What one access does to the dictionary and what it yields.  [Keys] lists
    the names in the order of [elements]; the source only ever passes that
    list to [sorted], whose result does not depend on the order. *)
Definition dict_step {B} (op : dictop B) (d : gmap string pyobj)
  : outcome B * gmap string pyobj :=
  match op in dictop T return outcome T * gmap string pyobj with
  | Contains name => (Return (bool_decide (is_Some (d !! name))), d)
  | SetItem name v => (Return tt, <[name := v]> d)
  | DelItem name =>
      match d !! name with
      | Some _ => (Return tt, delete name d)
      | None => (Raise (KeyError name), d)
      end
  | GetItem name =>
      match d !! name with
      | Some v => (Return v, d)
      | None => (Raise (KeyError name), d)
      end
  | Keys => (Return (elements (dom d)), d)
  end.

(** ** Programs *)

(** A program is finished (with a value or an exception in flight) or
    performs one access and goes on with its outcome. *)
Inductive prog (A : Type) : Type :=
  | Done (r : outcome A)
  | Access {B : Type} (op : dictop B) (k : outcome B -> prog A).
Arguments Done {A} r.
Arguments Access {A B} op k.

Definition ret {A} (a : A) : prog A := Done (Return a).
Definition raise {A} (e : exn) : prog A := Done (Raise e).

Fixpoint bind {A B} (p : prog A) (f : A -> prog B) : prog B :=
  match p with
  | Done (Return a) => f a
  | Done (Raise e) => Done (Raise e)
  | Access op k => Access op (fun o => bind (k o) f)
  end.

(** An access whose exception, if any, propagates. *)
Definition access {B} (op : dictop B) : prog B := Access op Done.

(** [try: body except KeyError: handler] *)
Fixpoint try_except_KeyError {A} (body : prog A) (handler : prog A) : prog A :=
  match body with
  | Done (Raise (KeyError _)) => handler
  | Done r => Done r
  | Access op k => Access op (fun o => try_except_KeyError (k o) handler)
  end.

Notation "'let!' x ':=' p 'in' q" := (bind p (fun x => q))
  (at level 10, x name, p at level 100, q at level 200).
Notation "'do!' p 'in' q" := (bind p (fun _ => q))
  (at level 10, p at level 100, q at level 200).

(** Sequential semantics: the program runs to its end on the dictionary. *)
Fixpoint run {A} (p : prog A) (d : gmap string pyobj)
  : outcome A * gmap string pyobj :=
  match p with
  | Done r => (r, d)
  | Access op k => let '(o, d') := dict_step op d in run (k o) d'
  end.

(** ** The registry *)

(** [register(name, blotter_class=None)], lines 43-70. *)
Definition register (name : string) (blotter_class : pyobj) : prog pyobj :=
  if is_None blotter_class then
    ret (PyPartialRegister name)
  else
    let! present := access (Contains name) in
    if (present : bool) then
      raise (ValueError (already_registered name))
    else
      match issubclass blotter_class Blotter with
      | Raise e => raise e
      | Return false => raise (TypeError not_a_subclass_of_Blotter)
      | Return true =>
          do! access (SetItem name blotter_class) in
          ret blotter_class
      end.

(** [unregister(name)], lines 72-90.  A Python function that falls off its
    end returns [None]. *)
Definition unregister (name : string) : prog pyobj :=
  do! try_except_KeyError
        (access (DelItem name))
        (raise (ValueError (was_not_already_registered name))) in
  ret PyNone.

(** [load(name)], lines 92-115. *)
Definition load (name : string) : prog pyobj :=
  let! blotter_class :=
    try_except_KeyError
      (access (GetItem name))
      (let! keys := access Keys in
       raise (ValueError (no_blotter_class_registered name (sorted keys)))) in
  ret blotter_class.

(** A call site [register(name)] or [register(name, blotter_class)]: an
    omitted second argument takes the default [None] of line 43. *)
Definition register_call (name : string) (blotter_class : option pyobj)
  : prog pyobj :=
  register name (default PyNone blotter_class).

(** Calling the object [partial(register, name)] of line 60 with positional
    arguments [args]: it calls [register(name, *args)]. *)
Definition call_partial (name : string) (args : list pyobj) : prog pyobj :=
  match args with
  | [] => register_call name None
  | [x] => register_call name (Some x)
  | _ => raise (TypeError takes_at_most_2_arguments)
  end.

(** ** The read-only view, line 41 *)

(** Modelled from the spec: [mappingproxy] is imported from
    zipline.utils.compat, another module.  Following section 4.1 of the
    specification, the view holds no contents of its own: every read goes to
    the live [_blotters], and each attempt to insert, update or delete
    through it fails with an Immutable-Violation. *)
Definition view_getitem (name : string) : prog pyobj := access (GetItem name).
Definition view_contains (name : string) : prog bool := access (Contains name).
Definition view_iter : prog (list string) := access Keys.
Definition view_setitem (name : string) (v : pyobj) : prog pyobj :=
  raise (ImmutableViolation item_assignment).
Definition view_delitem (name : string) : prog pyobj :=
  raise (ImmutableViolation item_deletion).

(** ** Sequences of calls by client code *)

Inductive call : Type :=
  | Register (name : string) (blotter_class : option pyobj)
  | CallPartial (name : string) (args : list pyobj)
  | Unregister (name : string)
  | Load (name : string)
  | ViewGetitem (name : string)
  | ViewContains (name : string)
  | ViewIter
  | ViewSetitem (name : string) (v : pyobj)
  | ViewDelitem (name : string).

Global Instance call_eq_dec : EqDecision call.
Proof. solve_decision. Defined.

(** The dictionary after one call, whatever the call returned or raised (the
    caller may catch the exception and carry on). *)
Definition after (c : call) (d : gmap string pyobj) : gmap string pyobj :=
  match c with
  | Register name cls => (run (register_call name cls) d).2
  | CallPartial name args => (run (call_partial name args) d).2
  | Unregister name => (run (unregister name) d).2
  | Load name => (run (load name) d).2
  | ViewGetitem name => (run (view_getitem name) d).2
  | ViewContains name => (run (view_contains name) d).2
  | ViewIter => (run view_iter d).2
  | ViewSetitem name v => (run (view_setitem name v) d).2
  | ViewDelitem name => (run (view_delitem name) d).2
  end.

Definition after_all (cs : list call) (d : gmap string pyobj)
  : gmap string pyobj :=
  foldl (fun d c => after c d) d cs.

(** ** The error taxonomy of the specification, on the exceptions raised *)

Definition Duplicate_Name (name : string) : exn :=
  ValueError (already_registered name).
Definition Contract_Violation : exn :=
  TypeError not_a_subclass_of_Blotter.
Definition Not_Found_unregister (name : string) : exn :=
  ValueError (was_not_already_registered name).
Definition Not_Found_load (name : string) (options : list string) : exn :=
  ValueError (no_blotter_class_registered name options).

(** The Entry Contract in the words of the specification: a concrete, fully
    defined subtype of the abstract capability. *)
Definition satisfies_contract (x : pyobj) : Prop :=
  match x with
  | PyType c => Blotter ∈ cls_mro c ∧ cls_abstractmethods c = []
  | _ => False
  end.

(** What line 65 tests. *)
Definition subclass_of_Blotter (x : pyobj) : Prop :=
  match x with
  | PyType c => Blotter ∈ cls_mro c
  | _ => False
  end.

(** The exceptions [register], [unregister] and [load] can raise. *)
Definition registry_raises (e : exn) : Prop :=
  ∃ d d',
    (∃ name x, run (register name x) d = (Raise e, d'))
    ∨ (∃ name, run (unregister name) d = (Raise e, d'))
    ∨ (∃ name, run (load name) d = (Raise e, d')).

(** Every stored value went through line 65. *)
Definition all_subclasses (d : gmap string pyobj) : Prop :=
  ∀ n v, d !! n = Some v → subclass_of_Blotter v.

(** ** Two callers at once

    The source takes no lock.  Each access to [_blotters] is one indivisible
    step (a single operation on a built-in dict), and another caller may run
    between any two of them. *)

(** One access of a program that is not finished. *)
Definition step {A} (p : prog A) (d : gmap string pyobj)
  : prog A * gmap string pyobj :=
  match p with
  | Done r => (Done r, d)
  | Access op k => let '(o, d') := dict_step op d in (k o, d')
  end.

Fixpoint steps {A} (k : nat) (p : prog A) (d : gmap string pyobj)
  : prog A * gmap string pyobj :=
  match k with
  | 0 => (p, d)
  | S k => let '(p', d') := step p d in steps k p' d'
  end.

Inductive turn : Type := First | Second.

(** Two programs on the same dictionary, the schedule saying whose access
    comes next. *)
Fixpoint interleave {A B} (schedule : list turn) (p : prog A) (q : prog B)
    (d : gmap string pyobj) : prog A * prog B * gmap string pyobj :=
  match schedule with
  | [] => (p, q, d)
  | First :: s => let '(p', d') := step p d in interleave s p' q d'
  | Second :: s => let '(q', d') := step q d in interleave s p q' d'
  end.

(** One caller runs all its steps before the other starts. *)
Definition serial (schedule : list turn) : Prop :=
  ∃ k m, schedule = replicate k First ++ replicate m Second
         ∨ schedule = replicate k Second ++ replicate m First.

Definition exactly_one_succeeds (name : string) (r1 r2 : outcome pyobj)
  : Prop :=
  (∃ a, r1 = Return a ∧ r2 = Raise (Duplicate_Name name))
  ∨ (∃ b, r1 = Raise (Duplicate_Name name) ∧ r2 = Return b).

(** [register] past line 66, about to execute line 68. *)
Definition storing (name : string) (x : pyobj) : prog pyobj :=
  do! access (SetItem name x) in ret x.

(** The configurations two calls [register(n, A)] and [register(n, B)] can be
    in, started on a dictionary [d] where [n] is free. *)
Inductive reachable (name : string) (A B : pyobj) (d : gmap string pyobj)
  : prog pyobj → prog pyobj → gmap string pyobj → Prop :=
  | at_start : reachable name A B d (register name A) (register name B) d
  | first_tested :
      reachable name A B d (storing name A) (register name B) d
  | second_tested :
      reachable name A B d (register name A) (storing name B) d
  | both_tested : reachable name A B d (storing name A) (storing name B) d
  | first_stored :
      reachable name A B d (ret A) (register name B) (<[name := A]> d)
  | second_stored :
      reachable name A B d (register name A) (ret B) (<[name := B]> d)
  | first_stored_second_tested :
      reachable name A B d (ret A) (storing name B) (<[name := A]> d)
  | second_stored_first_tested :
      reachable name A B d (storing name A) (ret B) (<[name := B]> d)
  | second_refused :
      reachable name A B d
        (ret A) (raise (Duplicate_Name name)) (<[name := A]> d)
  | first_refused :
      reachable name A B d
        (raise (Duplicate_Name name)) (ret B) (<[name := B]> d)
  | both_stored_first_last :
      reachable name A B d (ret A) (ret B) (<[name := A]> d)
  | both_stored_second_last :
      reachable name A B d (ret A) (ret B) (<[name := B]> d).

Global Instance turn_eq_dec : EqDecision turn.
Proof. solve_decision. Defined.

(** The number of turns a schedule gives to one caller. *)
Definition turns (t : turn) (schedule : list turn) : nat :=
  length (filter (λ u, u = t) schedule).

(** A call [register(name, x)] that finds the name free and the candidate
    acceptable, after [k] turns of its own: about to test (line 62), about
    to store (line 68), returned (line 70). *)
Definition register_after (k : nat) (name : string) (x : pyobj)
  : prog pyobj :=
  match k with
  | 0 => register name x
  | 1 => storing name x
  | _ => ret x
  end.

(** What that call has done to the dictionary by then. *)
Definition stored_after (k : nat) (name : string) (x : pyobj)
    (d : gmap string pyobj) : gmap string pyobj :=
  match k with
  | 0 | 1 => d
  | _ => <[name := x]> d
  end.

(** ** Registries made by [_make_blotters_core]

    Each call of [_make_blotters_core] creates a dictionary of its own
    (line 37) and returns four objects that all refer to it (line 117).  The
    dictionaries created so far are kept in a list, a dictionary being known
    by its position. *)

(** A program of the registry whose dictionary is at position [l]. *)
Definition run_in {A} (l : nat) (p : prog A) (h : list (gmap string pyobj))
  : outcome A * list (gmap string pyobj) :=
  let '(r, d') := run p (h !!! l) in (r, <[l := d']> h).

(** The four objects returned: the proxy, which refers to the dictionary,
    and the three closures. *)
Record blotters_core : Type := BlottersCore {
  core_blotters : nat;
  core_register :
    string → pyobj → list (gmap string pyobj)
    → outcome pyobj * list (gmap string pyobj);
  core_unregister :
    string → list (gmap string pyobj)
    → outcome pyobj * list (gmap string pyobj);
  core_load :
    string → list (gmap string pyobj)
    → outcome pyobj * list (gmap string pyobj)
}.

(** [_make_blotters_core()], lines 21-117. *)
Definition _make_blotters_core (h : list (gmap string pyobj))
  : blotters_core * list (gmap string pyobj) :=
  let _blotters := length h in
  ({| core_blotters := _blotters;
      core_register name blotter_class :=
        run_in _blotters (register name blotter_class);
      core_unregister name := run_in _blotters (unregister name);
      core_load name := run_in _blotters (load name) |},
   h ++ [∅]).

(** The store after client calls on the registry at position [l]. *)
Definition after_all_in (l : nat) (cs : list call)
    (h : list (gmap string pyobj)) : list (gmap string pyobj) :=
  <[l := after_all cs (h !!! l)]> h.

(** ** Concrete classes used in the examples *)

(** [class SimBlotter(Blotter)] with every abstract method defined. *)
Definition SimBlotter : pyclass :=
  {| cls_id := 10; cls_mro := [10; Blotter; object]%positive;
     cls_abstractmethods := [] |}.

(** A second complete implementation. *)
Definition LiveBlotter : pyclass :=
  {| cls_id := 11; cls_mro := [11; Blotter; object]%positive;
     cls_abstractmethods := [] |}.

(** [class HalfBlotter(Blotter)] which leaves [order] and [cancel] abstract. *)
Definition HalfBlotter : pyclass :=
  {| cls_id := 12; cls_mro := [12; Blotter; object]%positive;
     cls_abstractmethods := ["order"; "cancel"] |}.

(** A class unrelated to [Blotter]. *)
Definition Unrelated : pyclass :=
  {| cls_id := 13; cls_mro := [13; object]%positive;
     cls_abstractmethods := [] |}.

(** * Proofs *)

(** ** Sequential behaviour of the three functions *)

Lemma run_register_None name d :
  run (register name PyNone) d = (Return (PyPartialRegister name), d).
Proof. reflexivity. Qed.

Lemma run_register_present name x d v :
  x ≠ PyNone → d !! name = Some v →
  run (register name x) d = (Raise (Duplicate_Name name), d).
Proof.
  intros Hx Hd. destruct x; try congruence; cbn;
    rewrite bool_decide_eq_true_2 by (rewrite Hd; eauto); reflexivity.
Qed.

Lemma run_register_fresh_subclass name x d :
  subclass_of_Blotter x → d !! name = None →
  run (register name x) d = (Return x, <[name := x]> d).
Proof.
  intros Hx Hd. destruct x as [|c| |]; try contradiction; cbn in *.
  rewrite bool_decide_eq_false_2 by (rewrite Hd; apply is_Some_None).
  cbn. rewrite bool_decide_eq_true_2 by done. reflexivity.
Qed.

Lemma run_register_fresh_other_class name c d :
  Blotter ∉ cls_mro c → d !! name = None →
  run (register name (PyType c)) d = (Raise Contract_Violation, d).
Proof.
  intros Hx Hd. cbn.
  rewrite bool_decide_eq_false_2 by (rewrite Hd; apply is_Some_None).
  cbn. rewrite bool_decide_eq_false_2 by done. reflexivity.
Qed.

Lemma run_register_fresh_not_a_class name x d :
  x ≠ PyNone → (∀ c, x ≠ PyType c) → d !! name = None →
  run (register name x) d
  = (Raise (TypeError issubclass_arg_1_must_be_a_class), d).
Proof.
  intros Hx Hc Hd. destruct x as [|c| |]; try congruence; cbn;
    try (rewrite bool_decide_eq_false_2 by (rewrite Hd; apply is_Some_None);
         reflexivity).
Qed.

Lemma run_unregister_present name d v :
  d !! name = Some v →
  run (unregister name) d = (Return PyNone, delete name d).
Proof. intros Hd. cbn. rewrite Hd. reflexivity. Qed.

Lemma run_unregister_absent name d :
  d !! name = None →
  run (unregister name) d = (Raise (Not_Found_unregister name), d).
Proof. intros Hd. cbn. rewrite Hd. reflexivity. Qed.

Lemma run_load_present name d v :
  d !! name = Some v → run (load name) d = (Return v, d).
Proof. intros Hd. cbn. rewrite Hd. reflexivity. Qed.

Lemma run_load_absent name d :
  d !! name = None →
  run (load name) d
  = (Raise (Not_Found_load name (sorted (elements (dom d)))), d).
Proof. intros Hd. cbn. rewrite Hd. reflexivity. Qed.

(** A call of [register] either leaves the dictionary as it was, or the name
    was free, the candidate passed line 65, and the pair was inserted. *)
Lemma run_register_cases name x d :
  (run (register name x) d).2 = d
  ∨ (d !! name = None ∧ subclass_of_Blotter x
     ∧ run (register name x) d = (Return x, <[name := x]> d)).
Proof.
  destruct (decide (x = PyNone)) as [->|Hx]; [left; reflexivity|].
  destruct (d !! name) as [v|] eqn:Hd.
  { left. by rewrite (run_register_present _ _ _ v). }
  destruct x as [|c|oid|n]; try congruence.
  - destruct (decide (Blotter ∈ cls_mro c)) as [Hc|Hc].
    + right. split_and!; [done..|]. by apply run_register_fresh_subclass.
    + left. by rewrite run_register_fresh_other_class.
  - left. by rewrite run_register_fresh_not_a_class.
  - left. by rewrite run_register_fresh_not_a_class.
Qed.

Lemma run_call_partial_cases name args d :
  (run (call_partial name args) d).2 = d
  ∨ (∃ x, d !! name = None ∧ subclass_of_Blotter x
     ∧ run (call_partial name args) d = (Return x, <[name := x]> d)).
Proof.
  destruct args as [|x [|y args]]; [left; reflexivity| |left; reflexivity].
  destruct (run_register_cases name x d) as [H|H]; [by left|].
  right. exists x. exact H.
Qed.

(** Only a call of [unregister] on that very name takes an entry away, and
    nothing ever replaces an entry. *)
Lemma after_lookup_Some c name v d :
  c ≠ Unregister name → d !! name = Some v → after c d !! name = Some v.
Proof.
  intros Hc Hd. destruct c as [n cls|n args|n|n|n|n| |n x|n]; cbn [after].
  - unfold register_call.
    destruct (run_register_cases n (default PyNone cls) d) as [->|(Hn & _ & ->)];
      [done|]. cbn. rewrite lookup_insert_ne; [done|congruence].
  - destruct (run_call_partial_cases n args d) as [->|(x & Hn & _ & ->)];
      [done|]. cbn. rewrite lookup_insert_ne; [done|congruence].
  - assert (n ≠ name) by congruence.
    destruct (d !! n) as [w|] eqn:Hn.
    + rewrite (run_unregister_present _ _ w) by done. cbn.
      by rewrite lookup_delete_ne.
    + by rewrite run_unregister_absent.
  - destruct (d !! n) as [w|] eqn:Hn.
    + by rewrite (run_load_present _ _ w).
    + by rewrite run_load_absent.
  - cbn. by destruct (d !! n).
  - done.
  - done.
  - done.
  - done.
Qed.

Lemma after_all_lookup_Some cs name v d :
  Forall (λ c, c ≠ Unregister name) cs →
  d !! name = Some v → after_all cs d !! name = Some v.
Proof.
  intros Hcs. revert d. induction Hcs as [|c cs Hc _ IH]; intros d Hd; [done|].
  cbn. apply IH. by apply after_lookup_Some.
Qed.

(** A successful [register] of a candidate other than [None] returned that
    candidate and stored it under the name. *)
Lemma run_register_Return name x d r d' :
  x ≠ PyNone → run (register name x) d = (Return r, d') →
  r = x ∧ d !! name = None ∧ subclass_of_Blotter x ∧ d' = <[name := x]> d.
Proof.
  intros Hx Hrun. destruct (d !! name) as [v|] eqn:Hd.
  { rewrite (run_register_present _ _ _ v) in Hrun by done. discriminate. }
  destruct x as [|c|oid|n]; try congruence.
  - destruct (decide (Blotter ∈ cls_mro c)) as [Hc|Hc].
    + rewrite run_register_fresh_subclass in Hrun by done.
      by simplify_eq.
    + rewrite run_register_fresh_other_class in Hrun by done. discriminate.
  - rewrite run_register_fresh_not_a_class in Hrun by done. discriminate.
  - rewrite run_register_fresh_not_a_class in Hrun by done. discriminate.
Qed.

(** * C1 *)

(** C1 (round trip): when [register(n, A)] with an implementation [A]
    succeeds, it returns [A] itself, and after any further calls among which
    there is no [unregister(n)], [load(n)] returns that same object [A]. *)
Theorem register_load_round_trip name A d r d' cs :
  A ≠ PyNone →
  run (register name A) d = (Return r, d') →
  Forall (λ c, c ≠ Unregister name) cs →
  r = A ∧ run (load name) (after_all cs d') = (Return A, after_all cs d').
Proof.
  intros HA Hrun Hcs.
  apply run_register_Return in Hrun as (-> & _ & _ & ->); [|done].
  split; [done|]. apply run_load_present.
  apply after_all_lookup_Some; [done|]. apply lookup_insert_eq.
Qed.

Lemma register_load_round_trip_witness :
  PyType SimBlotter = PyType SimBlotter
  ∧ run (load "sim")
        (after_all [Load "x"; Register "sim" (Some (PyType LiveBlotter));
                    Unregister "y"]
                   (<["sim" := PyType SimBlotter]> ∅))
    = (Return (PyType SimBlotter),
       after_all [Load "x"; Register "sim" (Some (PyType LiveBlotter));
                  Unregister "y"]
                 (<["sim" := PyType SimBlotter]> ∅)).
Proof.
  apply (register_load_round_trip "sim" (PyType SimBlotter) ∅).
  - discriminate.
  - reflexivity.
  - repeat constructor; discriminate.
Defined.

(** * C2 *)

(** C2, as stated, fails for [B = None]: on a registered name the call
    [register("sim", None)] raises nothing and returns the decorator. *)
Lemma register_None_on_registered_name_is_no_error :
  run (register "sim" (PyType SimBlotter)) ∅
  = (Return (PyType SimBlotter), <["sim" := PyType SimBlotter]> ∅)
  ∧ run (register "sim" PyNone) (<["sim" := PyType SimBlotter]> ∅)
    = (Return (PyPartialRegister "sim"), <["sim" := PyType SimBlotter]> ∅)
  ∧ ¬ (∃ d'', run (register "sim" PyNone) (<["sim" := PyType SimBlotter]> ∅)
              = (Raise (Duplicate_Name "sim"), d'')).
Proof.
  split_and!; [reflexivity..|]. intros [d'' H]. cbn in H. discriminate.
Qed.

(** C2 (uniqueness, amended): when [register(n, A)] has succeeded, then after
    any further calls among which there is no [unregister(n)], a call
    [register(n, B)] with [B] other than [None] raises the Duplicate-Name
    error, leaves the dictionary as it was, and the dictionary still maps
    [n] to [A]. *)
Theorem register_twice_is_duplicate name A B d r d' cs :
  A ≠ PyNone →
  run (register name A) d = (Return r, d') →
  Forall (λ c, c ≠ Unregister name) cs →
  B ≠ PyNone →
  run (register name B) (after_all cs d')
  = (Raise (Duplicate_Name name), after_all cs d')
  ∧ after_all cs d' !! name = Some A.
Proof.
  intros HA Hrun Hcs HB.
  apply run_register_Return in Hrun as (_ & _ & _ & ->); [|done].
  assert (after_all cs (<[name := A]> d) !! name = Some A) as Hl.
  { apply after_all_lookup_Some; [done|]. apply lookup_insert_eq. }
  split; [|done]. by apply (run_register_present _ _ _ A).
Qed.

Lemma register_twice_is_duplicate_witness :
  run (register "sim" (PyType LiveBlotter))
      (after_all [Load "sim"; ViewDelitem "sim"]
                 (<["sim" := PyType SimBlotter]> ∅))
  = (Raise (Duplicate_Name "sim"),
     after_all [Load "sim"; ViewDelitem "sim"]
               (<["sim" := PyType SimBlotter]> ∅))
  ∧ after_all [Load "sim"; ViewDelitem "sim"]
              (<["sim" := PyType SimBlotter]> ∅) !! "sim"
    = Some (PyType SimBlotter).
Proof.
  apply (register_twice_is_duplicate "sim" (PyType SimBlotter)
           (PyType LiveBlotter) ∅ (PyType SimBlotter)).
  - discriminate.
  - reflexivity.
  - repeat constructor; discriminate.
  - discriminate.
Defined.

(** * C3 *)

(** C3, as stated, fails on a partial implementation: [HalfBlotter] derives
    from [Blotter] and leaves methods abstract, so it does not satisfy the
    Entry Contract, yet [register] accepts and stores it. *)
Lemma register_accepts_partial_implementation :
  ¬ satisfies_contract (PyType HalfBlotter)
  ∧ (∅ : gmap string pyobj) !! "half" = None
  ∧ run (register "half" (PyType HalfBlotter)) ∅
    = (Return (PyType HalfBlotter), <["half" := PyType HalfBlotter]> ∅).
Proof.
  split_and!; [|reflexivity..]. intros [_ H]. discriminate.
Qed.

(** C3 (contract enforcement, amended): on a name not yet registered, a
    candidate other than [None] that is not a subclass of [Blotter] makes
    [register] raise a [TypeError] (its own "not a subclass of Blotter" for a
    class, the one of [issubclass] for a value that is no class) and leaves
    the dictionary unchanged; whenever [register] changes the dictionary,
    the candidate is a subclass of [Blotter] and the change is the insertion
    of that candidate under the name. *)
Theorem register_enforces_subclass name X d :
  d !! name = None →
  X ≠ PyNone →
  (¬ subclass_of_Blotter X →
     run (register name X) d = (Raise Contract_Violation, d)
     ∨ ((∀ c, X ≠ PyType c)
        ∧ run (register name X) d
          = (Raise (TypeError issubclass_arg_1_must_be_a_class), d)))
  ∧ ((run (register name X) d).2 ≠ d →
     subclass_of_Blotter X
     ∧ run (register name X) d = (Return X, <[name := X]> d)).
Proof.
  intros Hd HX. split.
  - intros Hsub. destruct X as [|c|oid|n]; try congruence.
    + left. by apply run_register_fresh_other_class.
    + right. split; [done|]. by apply run_register_fresh_not_a_class.
    + right. split; [done|]. by apply run_register_fresh_not_a_class.
  - intros Hne.
    destruct (run_register_cases name X d) as [H|(_ & Hs & H)]; done.
Qed.

Lemma register_enforces_subclass_witness :
  (run (register "u" (PyType Unrelated)) ∅ = (Raise Contract_Violation, ∅)
   ∨ ((∀ c, PyType Unrelated ≠ PyType c)
      ∧ run (register "u" (PyType Unrelated)) ∅
        = (Raise (TypeError issubclass_arg_1_must_be_a_class), ∅)))
  ∧ (subclass_of_Blotter (PyType SimBlotter)
     ∧ run (register "sim" (PyType SimBlotter)) ∅
       = (Return (PyType SimBlotter), <["sim" := PyType SimBlotter]> ∅)).
Proof.
  split.
  - apply (register_enforces_subclass "u" (PyType Unrelated) ∅).
    + reflexivity.
    + discriminate.
    + intros H%list_elem_of_In. cbn in H. intuition discriminate.
  - apply (register_enforces_subclass "sim" (PyType SimBlotter) ∅).
    + reflexivity.
    + discriminate.
    + intros H. apply (f_equal (λ m, m !! "sim")) in H.
      vm_compute in H. discriminate.
Defined.

(** * C4 *)

(** The list reported by [load] is [sorted(_blotters)]: it is in
    non-decreasing order, without repetition, and holds exactly the names
    registered at that moment. *)
Lemma sorted_keys_spec (d : gmap string pyobj) :
  Sorted String.le (sorted (elements (dom d)))
  ∧ NoDup (sorted (elements (dom d)))
  ∧ ∀ n, n ∈ sorted (elements (dom d)) ↔ is_Some (d !! n).
Proof.
  unfold sorted. split_and!.
  - apply Sorted_merge_sort. apply _.
  - rewrite merge_sort_Permutation. apply NoDup_elements.
  - intros n. rewrite merge_sort_Permutation, elem_of_elements.
    apply elem_of_dom.
Qed.

(** [sorted] yields the same list on every arrangement of the same names. *)
Lemma sorted_Permutation (l1 l2 : list string) :
  l1 ≡ₚ l2 → sorted l1 = sorted l2.
Proof.
  intros H. unfold sorted. apply (Sorted_unique String.le).
  - apply Sorted_merge_sort, _.
  - apply Sorted_merge_sort, _.
  - by rewrite !merge_sort_Permutation.
Qed.

Lemma run_load_unchanged name d : (run (load name) d).2 = d.
Proof.
  destruct (d !! name) as [v|] eqn:Hd.
  - by rewrite (run_load_present _ _ v).
  - by rewrite run_load_absent.
Qed.

(** C4 (unknown lookup): [load(n)] on a name absent from the dictionary
    raises the Not-Found error carrying the sorted list of exactly the names
    currently registered (the empty list on the empty dictionary), and no
    call of [load] changes the dictionary. *)
Theorem load_absent_reports_sorted_names name d :
  d !! name = None →
  run (load name) d
  = (Raise (Not_Found_load name (sorted (elements (dom d)))), d)
  ∧ Sorted String.le (sorted (elements (dom d)))
  ∧ NoDup (sorted (elements (dom d)))
  ∧ (∀ n, n ∈ sorted (elements (dom d)) ↔ is_Some (d !! n))
  ∧ (d = ∅ → sorted (elements (dom d)) = [])
  ∧ (∀ n' d0, (run (load n') d0).2 = d0).
Proof.
  intros Hd. destruct (sorted_keys_spec d) as (Hs & Hn & Hm).
  split_and!; [by apply run_load_absent|done..| |apply run_load_unchanged].
  intros ->. destruct (sorted _) as [|n l] eqn:E; [done|].
  assert (n ∈ n :: l) as Hin%Hm by left.
  rewrite lookup_empty in Hin. by destruct Hin.
Qed.

Lemma load_absent_reports_sorted_names_witness :
  run (load "missing")
      (<["sim" := PyType SimBlotter]> (<["live" := PyType LiveBlotter]> ∅))
  = (Raise (Not_Found_load "missing" ["live"; "sim"]),
     <["sim" := PyType SimBlotter]> (<["live" := PyType LiveBlotter]> ∅))
  ∧ run (load "missing") ∅ = (Raise (Not_Found_load "missing" []), ∅).
Proof.
  split.
  - exact (proj1 (load_absent_reports_sorted_names "missing"
                    (<["sim" := PyType SimBlotter]>
                       (<["live" := PyType LiveBlotter]> ∅)) eq_refl)).
  - exact (proj1 (load_absent_reports_sorted_names "missing" ∅ eq_refl)).
Defined.

(** * C5 *)

(** C5 (unregister): on a registered name, [unregister(n)] returns and
    removes the entry of [n] and no other, after which [load(n)] raises the
    Not-Found error; on a name that is not registered it raises the
    Not-Found error and leaves the dictionary as it was. *)
Theorem unregister_removes_exactly_one name d :
  (∀ v, d !! name = Some v →
     run (unregister name) d = (Return PyNone, delete name d)
     ∧ delete name d !! name = None
     ∧ (∀ n, n ≠ name → delete name d !! n = d !! n)
     ∧ run (load name) (delete name d)
       = (Raise (Not_Found_load name
                   (sorted (elements (dom (delete name d))))),
          delete name d))
  ∧ (d !! name = None →
     run (unregister name) d = (Raise (Not_Found_unregister name), d)).
Proof.
  split.
  - intros v Hd. split_and!.
    + by apply (run_unregister_present _ _ v).
    + apply lookup_delete_eq.
    + intros n Hn. by apply lookup_delete_ne.
    + apply run_load_absent, lookup_delete_eq.
  - apply run_unregister_absent.
Qed.

Lemma unregister_removes_exactly_one_witness :
  (run (unregister "sim")
       (<["sim" := PyType SimBlotter]> (<["live" := PyType LiveBlotter]> ∅))
   = (Return PyNone,
      delete "sim"
        (<["sim" := PyType SimBlotter]> (<["live" := PyType LiveBlotter]> ∅))))
  ∧ run (unregister "sim") (<["live" := PyType LiveBlotter]> ∅)
    = (Raise (Not_Found_unregister "sim"), <["live" := PyType LiveBlotter]> ∅).
Proof.
  split.
  - exact (proj1 (proj1 (unregister_removes_exactly_one "sim"
                           (<["sim" := PyType SimBlotter]>
                              (<["live" := PyType LiveBlotter]> ∅)))
                        (PyType SimBlotter) eq_refl)).
  - exact (proj2 (unregister_removes_exactly_one "sim"
                    (<["live" := PyType LiveBlotter]> ∅)) eq_refl).
Defined.

(** * C6 *)

(** C6 (decorator form): [register(n)] changes nothing and returns the
    callable [partial(register, n)]; calling it with [A] is the very program
    [register(n, A)], so it has the same effect on the dictionary, the same
    errors and the same result in every state, and a successful call with an
    implementation returns that implementation. *)
Theorem decorator_form name d :
  run (register_call name None) d = (Return (PyPartialRegister name), d)
  ∧ (∀ A, call_partial name [A] = register_call name (Some A))
  ∧ (∀ A d0, run (call_partial name [A]) d0
             = run (register_call name (Some A)) d0)
  ∧ (∀ A d0 r d1, A ≠ PyNone →
       run (call_partial name [A]) d0 = (Return r, d1) →
       r = A ∧ d1 = <[name := A]> d0).
Proof.
  split_and!; [reflexivity..|].
  intros A d0 r d1 HA Hrun.
  apply run_register_Return in Hrun as (-> & _ & _ & ->); done.
Qed.

Lemma decorator_form_witness :
  run (register_call "sim" None) ∅ = (Return (PyPartialRegister "sim"), ∅)
  ∧ PyType SimBlotter = PyType SimBlotter
  ∧ <["sim" := PyType SimBlotter]> ∅
    = <["sim" := PyType SimBlotter]> (∅ : gmap string pyobj).
Proof.
  split.
  - exact (proj1 (decorator_form "sim" ∅)).
  - refine (proj2 (proj2 (proj2 (decorator_form "sim" ∅)))
              (PyType SimBlotter) ∅ (PyType SimBlotter)
              (<["sim" := PyType SimBlotter]> ∅) _ eq_refl).
    discriminate.
Defined.

(** * C7 *)

Lemma registry_raises_inv e :
  registry_raises e → ∃ m, e = ValueError m ∨ e = TypeError m.
Proof.
  intros (d & d' & [(name & x & H)|[(name & H)|(name & H)]]).
  - destruct (decide (x = PyNone)) as [->|Hx]; [discriminate|].
    destruct (d !! name) as [v|] eqn:Hd.
    { rewrite (run_register_present _ _ _ v) in H by done.
      simplify_eq. eexists; by left. }
    destruct x as [|c|oid|n]; try congruence.
    + destruct (decide (Blotter ∈ cls_mro c)).
      * rewrite run_register_fresh_subclass in H by done. discriminate.
      * rewrite run_register_fresh_other_class in H by done.
        simplify_eq. eexists; by right.
    + rewrite run_register_fresh_not_a_class in H by done.
      simplify_eq. eexists; by right.
    + rewrite run_register_fresh_not_a_class in H by done.
      simplify_eq. eexists; by right.
  - destruct (d !! name) as [v|] eqn:Hd.
    + rewrite (run_unregister_present _ _ v) in H by done. discriminate.
    + rewrite run_unregister_absent in H by done.
      simplify_eq. eexists; by left.
  - destruct (d !! name) as [v|] eqn:Hd.
    + rewrite (run_load_present _ _ v) in H by done. discriminate.
    + rewrite run_load_absent in H by done.
      simplify_eq. eexists; by left.
Qed.

(** C7 (view immutability): an item assignment (insert or update) or an item
    deletion through the view raises the Immutable-Violation error, which is
    none of the errors of [register], [unregister] and [load], and leaves the
    dictionary as it was, so every name registered before is still loaded
    with the same implementation afterwards. *)
Theorem view_rejects_mutation name v d :
  run (view_setitem name v) d = (Raise (ImmutableViolation item_assignment), d)
  ∧ run (view_delitem name) d = (Raise (ImmutableViolation item_deletion), d)
  ∧ (∀ what, ¬ registry_raises (ImmutableViolation what))
  ∧ after (ViewSetitem name v) d = d
  ∧ after (ViewDelitem name) d = d
  ∧ (∀ n w, d !! n = Some w →
       run (load n) (after (ViewSetitem name v) d)
       = (Return w, after (ViewSetitem name v) d)
       ∧ run (load n) (after (ViewDelitem name) d)
         = (Return w, after (ViewDelitem name) d)).
Proof.
  split_and!; [reflexivity..| |reflexivity|reflexivity|].
  - intros what [m [H|H]]%registry_raises_inv; discriminate.
  - intros n w Hn. cbn [after]. cbn. rewrite Hn. done.
Qed.

Lemma view_rejects_mutation_witness :
  run (load "sim")
      (after (ViewSetitem "sim" (PyType LiveBlotter))
             (<["sim" := PyType SimBlotter]> ∅))
  = (Return (PyType SimBlotter),
     after (ViewSetitem "sim" (PyType LiveBlotter))
           (<["sim" := PyType SimBlotter]> ∅))
  ∧ run (load "sim")
        (after (ViewDelitem "sim") (<["sim" := PyType SimBlotter]> ∅))
    = (Return (PyType SimBlotter),
       after (ViewDelitem "sim") (<["sim" := PyType SimBlotter]> ∅)).
Proof.
  exact (proj2 (proj2 (proj2 (proj2 (proj2
    (view_rejects_mutation "sim" (PyType LiveBlotter)
       (<["sim" := PyType SimBlotter]> ∅))))))
    "sim" (PyType SimBlotter) eq_refl).
Defined.

(** * C8 *)

Lemma step_register_free name x d :
  d !! name = None → subclass_of_Blotter x →
  step (register name x) d = (storing name x, d).
Proof.
  intros Hd Hx. destruct x as [|c| |]; try contradiction. cbn in *.
  rewrite bool_decide_eq_false_2 by (rewrite Hd; apply is_Some_None).
  rewrite bool_decide_eq_true_2 by done. reflexivity.
Qed.

Lemma step_register_taken name x d v :
  d !! name = Some v → x ≠ PyNone →
  step (register name x) d = (raise (Duplicate_Name name), d).
Proof.
  intros Hd Hx. destruct x; try congruence; cbn;
    rewrite bool_decide_eq_true_2 by (rewrite Hd; eauto); reflexivity.
Qed.

Lemma step_storing name x d :
  step (storing name x) d = (ret x, <[name := x]> d).
Proof. reflexivity. Qed.

Lemma step_Done {A} (r : outcome A) d : step (Done r) d = (Done r, d).
Proof. reflexivity. Qed.

Lemma subclass_not_None x : subclass_of_Blotter x → x ≠ PyNone.
Proof. by intros H ->. Qed.

Section two_registrations.
Context (name : string) (A B : pyobj) (d : gmap string pyobj).
Hypothesis name_free : d !! name = None.
Hypothesis A_subclass : subclass_of_Blotter A.
Hypothesis B_subclass : subclass_of_Blotter B.

Lemma reachable_step_first p q d' :
  reachable name A B d p q d' →
  reachable name A B d (step p d').1 q (step p d').2.
Proof.
  intros H. pose proof (subclass_not_None _ A_subclass) as HA'.
  destruct H;
    rewrite ?step_storing, ?(step_register_free _ _ d) by done;
    rewrite ?(step_register_taken _ _ _ B) by (by rewrite ?lookup_insert_eq);
    unfold ret, raise; rewrite ?step_Done; cbn [fst snd];
    rewrite ?insert_insert_eq; try constructor.
Qed.

Lemma reachable_step_second p q d' :
  reachable name A B d p q d' →
  reachable name A B d p (step q d').1 (step q d').2.
Proof.
  intros H. pose proof (subclass_not_None _ B_subclass) as HB'.
  destruct H;
    rewrite ?step_storing, ?(step_register_free _ _ d) by done;
    rewrite ?(step_register_taken _ _ _ A) by (by rewrite ?lookup_insert_eq);
    unfold ret, raise; rewrite ?step_Done; cbn [fst snd];
    rewrite ?insert_insert_eq; try constructor.
Qed.

(** Every configuration a schedule leads to is one of [reachable]. *)
Lemma reachable_interleave schedule p q d' :
  reachable name A B d p q d' →
  reachable name A B d
    (interleave schedule p q d').1.1 (interleave schedule p q d').1.2
    (interleave schedule p q d').2.
Proof.
  revert p q d'.
  induction schedule as [|[|] s IH]; intros p q d' H; [done| |]; cbn.
  - destruct (step p d') as [p1 d1] eqn:E. apply IH.
    apply reachable_step_first in H. by rewrite E in H.
  - destruct (step q d') as [q1 d1] eqn:E. apply IH.
    apply reachable_step_second in H. by rewrite E in H.
Qed.

End two_registrations.

Lemma register_not_Done name x (r : outcome pyobj) :
  x ≠ PyNone → register name x ≠ Done r.
Proof. intros Hx. by destruct x. Qed.

Lemma storing_not_Done name x (r : outcome pyobj) : storing name x ≠ Done r.
Proof. done. Qed.

(** When both calls are finished. *)
Lemma reachable_finished name A B d r1 r2 d' :
  subclass_of_Blotter A → subclass_of_Blotter B →
  reachable name A B d (Done r1) (Done r2) d' →
  (r1 = Return A ∧ r2 = Raise (Duplicate_Name name) ∧ d' = <[name := A]> d)
  ∨ (r1 = Raise (Duplicate_Name name) ∧ r2 = Return B
     ∧ d' = <[name := B]> d)
  ∨ (r1 = Return A ∧ r2 = Return B
     ∧ (d' = <[name := A]> d ∨ d' = <[name := B]> d)).
Proof.
  intros HA%subclass_not_None HB%subclass_not_None H.
  remember (Done r1) as p eqn:Ep. remember (Done r2) as q eqn:Eq.
  destruct H;
    try (by apply register_not_Done in Ep);
    try (by apply register_not_Done in Eq);
    try (by apply storing_not_Done in Ep);
    try (by apply storing_not_Done in Eq);
    unfold ret, raise in *; simplify_eq; eauto 10.
Qed.

Lemma interleave_app {A B} s1 s2 (p : prog A) (q : prog B) d :
  interleave (s1 ++ s2) p q d
  = let '(p', q', d') := interleave s1 p q d in interleave s2 p' q' d'.
Proof.
  revert p q d. induction s1 as [|[|] s1 IH]; intros p q d; [done| |]; cbn.
  - destruct (step p d). apply IH.
  - destruct (step q d). apply IH.
Qed.

Lemma interleave_first_only {A B} k (p : prog A) (q : prog B) d :
  interleave (replicate k First) p q d = ((steps k p d).1, q, (steps k p d).2).
Proof.
  revert p d. induction k as [|k IH]; intros p d; [done|]; cbn.
  destruct (step p d). apply IH.
Qed.

Lemma interleave_second_only {A B} k (p : prog A) (q : prog B) d :
  interleave (replicate k Second) p q d
  = (p, (steps k q d).1, (steps k q d).2).
Proof.
  revert q d. induction k as [|k IH]; intros q d; [done|]; cbn.
  destruct (step q d). apply IH.
Qed.

Lemma steps_Done {A} k (r : outcome A) d : steps k (Done r) d = (Done r, d).
Proof. induction k; [done|]. cbn. done. Qed.

(** A call of [register] running alone on a free name: test, store, done. *)
Lemma steps_register_free name x d k r d' :
  d !! name = None → subclass_of_Blotter x →
  steps k (register name x) d = (Done r, d') →
  r = Return x ∧ d' = <[name := x]> d.
Proof.
  intros Hd Hx H. destruct k as [|[|k]]; cbn [steps] in H.
  - injection H as H _. exfalso.
    by eapply register_not_Done; [eapply subclass_not_None|].
  - rewrite step_register_free in H by done. simplify_eq.
  - rewrite step_register_free in H by done. rewrite step_storing in H.
    unfold ret in H. rewrite steps_Done in H. by simplify_eq.
Qed.

(** A call of [register] running alone on a taken name: test, refused. *)
Lemma steps_register_taken name x d v k r d' :
  d !! name = Some v → x ≠ PyNone →
  steps k (register name x) d = (Done r, d') →
  r = Raise (Duplicate_Name name) ∧ d' = d.
Proof.
  intros Hd Hx H. destruct k as [|k]; cbn [steps] in H.
  - injection H as H _. by apply register_not_Done in H.
  - rewrite (step_register_taken _ _ _ v) in H by done.
    unfold raise in H. rewrite steps_Done in H. by simplify_eq.
Qed.

(** The sequential semantics is what the steps of a program add up to. *)
Lemma steps_run {A} (p : prog A) d :
  ∃ k, steps k p d = (Done (run p d).1, (run p d).2).
Proof.
  revert d. induction p as [r|B op k IH]; intros d.
  - by exists 0.
  - cbn [run]. destruct (dict_step op d) as [o d1] eqn:E.
    destruct (IH o d1) as [n Hn]. exists (S n). cbn [steps step].
    by rewrite E.
Qed.

Lemma serial_register_same_name name A B d k m r1 r2 d' :
  d !! name = None → subclass_of_Blotter A → subclass_of_Blotter B →
  interleave (replicate k First ++ replicate m Second)
    (register name A) (register name B) d = (Done r1, Done r2, d') →
  r1 = Return A ∧ r2 = Raise (Duplicate_Name name) ∧ d' = <[name := A]> d.
Proof.
  intros Hd HA HB H. rewrite interleave_app, interleave_first_only in H.
  rewrite interleave_second_only in H.
  destruct (steps k (register name A) d) as [p1 d1] eqn:E1. cbn [fst snd] in H.
  destruct (steps m (register name B) d1) as [q1 d2] eqn:E2.
  cbn [fst snd] in H. simplify_eq.
  apply steps_register_free in E1 as [-> ->]; [|done..].
  apply (steps_register_taken _ _ _ A) in E2 as [-> ->];
    [done|apply lookup_insert_eq|by apply subclass_not_None].
Qed.

Lemma serial_register_same_name_mirror name A B d k m r1 r2 d' :
  d !! name = None → subclass_of_Blotter A → subclass_of_Blotter B →
  interleave (replicate k Second ++ replicate m First)
    (register name A) (register name B) d = (Done r1, Done r2, d') →
  r1 = Raise (Duplicate_Name name) ∧ r2 = Return B ∧ d' = <[name := B]> d.
Proof.
  intros Hd HA HB H. rewrite interleave_app, interleave_second_only in H.
  rewrite interleave_first_only in H.
  destruct (steps k (register name B) d) as [q1 d1] eqn:E1. cbn [fst snd] in H.
  destruct (steps m (register name A) d1) as [p1 d2] eqn:E2.
  cbn [fst snd] in H. simplify_eq.
  apply steps_register_free in E1 as [-> ->]; [|done..].
  apply (steps_register_taken _ _ _ B) in E2 as [-> ->];
    [done|apply lookup_insert_eq|by apply subclass_not_None].
Qed.

(** C8, as stated, fails: with each call testing the name (line 62) before
    either has stored (line 68), two calls of [register] for the same name
    both succeed, and the second store replaces the first. *)
Lemma both_concurrent_registrations_succeed :
  interleave [First; Second; First; Second]
    (register "sim" (PyType SimBlotter)) (register "sim" (PyType LiveBlotter))
    ∅
  = (Done (Return (PyType SimBlotter)), Done (Return (PyType LiveBlotter)),
     <["sim" := PyType LiveBlotter]> ∅)
  ∧ ¬ exactly_one_succeeds "sim"
        (Return (PyType SimBlotter)) (Return (PyType LiveBlotter)).
Proof.
  split; [by vm_compute|].
  intros [(a & _ & H)|(b & H & _)]; discriminate.
Qed.

(** The same absence of a lock shows between [load] and [register]: a
    [load] whose lookup (line 106) failed before the other caller stored the
    name reports that very name among the valid ones (line 111). *)
Example load_overlapping_register :
  interleave [First; Second; Second; First]
    (load "sim") (register "sim" (PyType SimBlotter)) ∅
  = (Done (Raise (Not_Found_load "sim" ["sim"])),
     Done (Return (PyType SimBlotter)),
     <["sim" := PyType SimBlotter]> ∅).
Proof. by vm_compute. Qed.

(** C8 (amended): the registry takes no lock; what holds of two calls
    [register(n, A)] and [register(n, B)] on a free name with both candidates
    subclasses of [Blotter], once both have finished under any schedule: each
    call either returned its candidate or raised the Duplicate-Name error,
    at least one returned, and the dictionary is the initial one with [n]
    mapped to [A] or to [B] (a whole entry, every other name untouched); and
    when the calls do not overlap, exactly one succeeds, the other raises
    the Duplicate-Name error, and [n] is mapped to the candidate of the call
    that succeeded. *)
Theorem concurrent_register_same_name name A B d schedule r1 r2 d' :
  d !! name = None →
  subclass_of_Blotter A →
  subclass_of_Blotter B →
  interleave schedule (register name A) (register name B) d
  = (Done r1, Done r2, d') →
  (r1 = Return A ∨ r1 = Raise (Duplicate_Name name))
  ∧ (r2 = Return B ∨ r2 = Raise (Duplicate_Name name))
  ∧ (r1 = Return A ∨ r2 = Return B)
  ∧ (d' = <[name := A]> d ∨ d' = <[name := B]> d)
  ∧ (serial schedule →
       exactly_one_succeeds name r1 r2
       ∧ (r1 = Return A → d' = <[name := A]> d)
       ∧ (r2 = Return B → d' = <[name := B]> d)).
Proof.
  intros Hd HA HB H.
  pose proof (reachable_interleave name A B d Hd HA HB schedule _ _ _
                (at_start name A B d)) as Hr.
  rewrite H in Hr. cbn [fst snd] in Hr.
  apply reachable_finished in Hr; [|done..].
  assert (serial schedule →
          exactly_one_succeeds name r1 r2
          ∧ (r1 = Return A → d' = <[name := A]> d)
          ∧ (r2 = Return B → d' = <[name := B]> d)) as Hserial.
  { intros (k & m & [-> | ->]).
    - apply serial_register_same_name in H as (-> & -> & ->); [|done..].
      split_and!; [left; eauto|done|done].
    - apply serial_register_same_name_mirror in H as (-> & -> & ->);
        [|done..].
      split_and!; [right; eauto|done|done]. }
  clear H.
  destruct Hr as [(-> & -> & ->)|[(-> & -> & ->)|(-> & -> & Hd')]];
    split_and!; auto.
Qed.

Lemma concurrent_register_same_name_witness :
  exactly_one_succeeds "sim"
    (Return (PyType SimBlotter)) (Raise (Duplicate_Name "sim")).
Proof.
  refine (proj1 (proj2 (proj2 (proj2 (proj2
    (concurrent_register_same_name "sim" (PyType SimBlotter)
       (PyType LiveBlotter) ∅ [First; First; Second]
       (Return (PyType SimBlotter)) (Raise (Duplicate_Name "sim"))
       (<["sim" := PyType SimBlotter]> ∅) eq_refl _ _ _)))) _)).
  - cbn. rewrite !elem_of_cons. auto.
  - cbn. rewrite !elem_of_cons. auto.
  - by vm_compute.
  - exists 2, 1. by left.
Defined.

(** * C9 *)

(** C9 (validation order): on a registered name, [register(n, X)] with any
    [X] other than [None] raises the Duplicate-Name error, whether or not
    [X] passes the subclass test; and whenever [register] raises a
    [TypeError], the name was not registered. *)
Theorem duplicate_name_checked_first name X d v :
  d !! name = Some v →
  X ≠ PyNone →
  run (register name X) d = (Raise (Duplicate_Name name), d)
  ∧ (∀ n Y d1 m d2,
       run (register n Y) d1 = (Raise (TypeError m), d2) → d1 !! n = None).
Proof.
  intros Hd HX. split; [by apply (run_register_present _ _ _ v)|].
  intros n Y d1 m d2 H.
  destruct (d1 !! n) as [w|] eqn:Hn; [|done].
  destruct (decide (Y = PyNone)) as [->|HY]; [discriminate|].
  rewrite (run_register_present _ _ _ w) in H by done. discriminate.
Qed.

Lemma duplicate_name_checked_first_witness :
  run (register "sim" (PyInstance 7)) (<["sim" := PyType SimBlotter]> ∅)
  = (Raise (Duplicate_Name "sim"), <["sim" := PyType SimBlotter]> ∅)
  ∧ run (register "sim" (PyType Unrelated)) (<["sim" := PyType SimBlotter]> ∅)
    = (Raise (Duplicate_Name "sim"), <["sim" := PyType SimBlotter]> ∅).
Proof.
  split.
  - refine (proj1 (duplicate_name_checked_first "sim" (PyInstance 7)
                     (<["sim" := PyType SimBlotter]> ∅) (PyType SimBlotter)
                     eq_refl _)).
    discriminate.
  - refine (proj1 (duplicate_name_checked_first "sim" (PyType Unrelated)
                     (<["sim" := PyType SimBlotter]> ∅) (PyType SimBlotter)
                     eq_refl _)).
    discriminate.
Defined.

(** * C10 *)

(** What a single call can do to the dictionary. *)
Lemma after_cases c d :
  after c d = d
  ∨ (∃ n x, d !! n = None ∧ subclass_of_Blotter x ∧ after c d = <[n := x]> d)
  ∨ (∃ n, c = Unregister n ∧ is_Some (d !! n) ∧ after c d = delete n d).
Proof.
  destruct c as [n cls|n args|n|n|n|n| |n x|n]; cbn [after];
    try (left; reflexivity).
  - unfold register_call.
    destruct (run_register_cases n (default PyNone cls) d)
      as [->|(Hn & Hs & ->)]; [by left|].
    right; left. by exists n, (default PyNone cls).
  - destruct (run_call_partial_cases n args d) as [->|(x & Hn & Hs & ->)];
      [by left|].
    right; left. by exists n, x.
  - destruct (d !! n) as [w|] eqn:Hn.
    + rewrite (run_unregister_present _ _ w) by done.
      right; right. exists n. by rewrite Hn.
    + rewrite run_unregister_absent by done. by left.
  - left. apply run_load_unchanged.
  - left. cbn. by destruct (d !! n).
Qed.

Lemma after_all_subclasses c d : all_subclasses d → all_subclasses (after c d).
Proof.
  intros Hd.
  destruct (after_cases c d) as [->|[(n & x & _ & Hx & ->)|(n & _ & _ & ->)]];
    [done| |].
  - intros k v. rewrite lookup_insert. case_decide; [|by apply Hd].
    by intros [= <-].
  - intros k v. rewrite lookup_delete. case_decide; [done|by apply Hd].
Qed.

Lemma after_all_all_subclasses cs d :
  all_subclasses d → all_subclasses (after_all cs d).
Proof.
  revert d. induction cs as [|c cs IH]; intros d Hd; [done|].
  cbn. by apply IH, after_all_subclasses.
Qed.

(** C10 (explicit [None]): [register(n, None)] is the same program as
    [register(n)]: in any state, also one where [n] is registered, it
    changes nothing, raises nothing and returns the decorator; and whatever
    calls are made on the registry from its empty start, no name is ever
    mapped to [None]. *)
Theorem register_explicit_None name d :
  register_call name (Some PyNone) = register_call name None
  ∧ run (register_call name (Some PyNone)) d
    = (Return (PyPartialRegister name), d)
  ∧ (∀ cs n, after_all cs ∅ !! n ≠ Some PyNone).
Proof.
  split_and!; [reflexivity..|].
  intros cs n Hn.
  apply (after_all_all_subclasses cs ∅) in Hn; [done|].
  intros k v. by rewrite lookup_empty.
Qed.

(** * Further properties of the registry *)

(** ** Calls in sequence *)

(** Running [p] and then, on the dictionary it leaves, what follows; an
    exception of [p] ends the sequence. *)
Lemma run_bind {A B} (p : prog A) (f : A → prog B) d :
  run (bind p f) d
  = match run p d with
    | (Return a, d') => run (f a) d'
    | (Raise e, d') => (Raise e, d')
    end.
Proof.
  revert d. induction p as [[a|e]|C op k IH]; intros d; [done..|].
  cbn [bind run]. destruct (dict_step op d) as [o d']. apply IH.
Qed.

(** The outcomes of [register], by cases: the candidate is stored and
    returned exactly when the name is free and the candidate a subclass of
    [Blotter]; an exception is raised exactly when a candidate other than
    [None] meets a taken name or fails the subclass test; the decorator is
    returned exactly for [None]. *)
Theorem register_outcome_table name X d :
  (run (register name X) d = (Return X, <[name := X]> d)
   ↔ d !! name = None ∧ subclass_of_Blotter X)
  ∧ ((∃ e, run (register name X) d = (Raise e, d))
     ↔ X ≠ PyNone ∧ (is_Some (d !! name) ∨ ¬ subclass_of_Blotter X))
  ∧ (run (register name X) d = (Return (PyPartialRegister name), d)
     ↔ X = PyNone).
Proof.
  split_and!.
  - split.
    + intros H. assert (X ≠ PyNone) as HX by (intros ->; discriminate).
      by apply run_register_Return in H as (_ & ? & ? & _).
    + intros [Hd HX]. by apply run_register_fresh_subclass.
  - split.
    + intros [e H].
      destruct (decide (X = PyNone)) as [->|HX]; [discriminate|].
      split; [done|]. destruct (d !! name) as [v|] eqn:Hd; [left; eauto|].
      right. intros Hs. rewrite run_register_fresh_subclass in H by done.
      discriminate.
    + intros [HX [[v Hd]|Hs]].
      { eexists. by apply (run_register_present _ _ _ v). }
      destruct (d !! name) as [v|] eqn:Hd.
      { eexists. by apply (run_register_present _ _ _ v). }
      destruct X as [|c|oid|n]; try congruence.
      * eexists. by apply run_register_fresh_other_class.
      * eexists. by apply run_register_fresh_not_a_class.
      * eexists. by apply run_register_fresh_not_a_class.
  - split.
    + intros H. destruct (decide (X = PyNone)) as [->|HX]; [done|].
      apply run_register_Return in H as (<- & _ & Hs & _); [|done].
      destruct Hs.
    + intros ->. reflexivity.
Qed.

(** [register(n, X)] on a free name followed by [unregister(n)] gives back
    the dictionary exactly as it was before the two calls. *)
Theorem register_then_unregister_restores name X d :
  d !! name = None →
  subclass_of_Blotter X →
  run (do! register name X in unregister name) d = (Return PyNone, d).
Proof.
  intros Hd HX. rewrite run_bind, run_register_fresh_subclass by done.
  rewrite (run_unregister_present _ _ X) by apply lookup_insert_eq.
  by rewrite delete_insert_eq, delete_id.
Qed.

Lemma register_then_unregister_restores_witness :
  run (do! register "sim" (PyType SimBlotter) in unregister "sim")
      (<["live" := PyType LiveBlotter]> ∅)
  = (Return PyNone, <["live" := PyType LiveBlotter]> ∅).
Proof.
  apply (register_then_unregister_restores "sim" (PyType SimBlotter)
           (<["live" := PyType LiveBlotter]> ∅)).
  - reflexivity.
  - cbn. rewrite !elem_of_cons. auto.
Defined.

(** Replacing an implementation: on a registered name, [unregister(n)]
    followed by [register(n, B)] succeeds, returns [B], and [load(n)] then
    returns [B]; no other name is affected. *)
Theorem unregister_then_register_replaces name B d v :
  d !! name = Some v →
  subclass_of_Blotter B →
  run (do! unregister name in register name B) d
  = (Return B, <[name := B]> d)
  ∧ run (load name) (<[name := B]> d) = (Return B, <[name := B]> d)
  ∧ (∀ n, n ≠ name → <[name := B]> d !! n = d !! n).
Proof.
  intros Hd HB. split_and!.
  - rewrite run_bind, (run_unregister_present _ _ v) by done.
    rewrite run_register_fresh_subclass by (done || apply lookup_delete_eq).
    by rewrite insert_delete_eq.
  - apply run_load_present, lookup_insert_eq.
  - intros n Hn. by apply lookup_insert_ne.
Qed.

Lemma unregister_then_register_replaces_witness :
  run (do! unregister "sim" in register "sim" (PyType LiveBlotter))
      (<["sim" := PyType SimBlotter]> ∅)
  = (Return (PyType LiveBlotter),
     <["sim" := PyType LiveBlotter]> (<["sim" := PyType SimBlotter]> ∅)).
Proof.
  refine (proj1 (unregister_then_register_replaces "sim" (PyType LiveBlotter)
                   (<["sim" := PyType SimBlotter]> ∅) (PyType SimBlotter)
                   eq_refl _)).
  cbn. rewrite !elem_of_cons. auto.
Defined.

(** Registrations under different names do not depend on their order: both
    succeed either way and leave the same dictionary. *)
Theorem registrations_commute n1 n2 A B d :
  n1 ≠ n2 →
  d !! n1 = None →
  d !! n2 = None →
  subclass_of_Blotter A →
  subclass_of_Blotter B →
  run (do! register n1 A in register n2 B) d
  = (Return B, <[n1 := A]> (<[n2 := B]> d))
  ∧ run (do! register n2 B in register n1 A) d
    = (Return A, <[n1 := A]> (<[n2 := B]> d)).
Proof.
  intros Hne H1 H2 HA HB. split.
  - rewrite run_bind, run_register_fresh_subclass by done.
    rewrite run_register_fresh_subclass
      by (done || by rewrite lookup_insert_ne).
    by rewrite insert_insert_ne.
  - rewrite run_bind, run_register_fresh_subclass by done.
    by rewrite run_register_fresh_subclass
      by (done || by rewrite lookup_insert_ne).
Qed.

Lemma registrations_commute_witness :
  run (do! register "sim" (PyType SimBlotter)
       in register "live" (PyType LiveBlotter)) ∅
  = (Return (PyType LiveBlotter),
     <["sim" := PyType SimBlotter]> (<["live" := PyType LiveBlotter]> ∅))
  ∧ run (do! register "live" (PyType LiveBlotter)
         in register "sim" (PyType SimBlotter)) ∅
    = (Return (PyType SimBlotter),
       <["sim" := PyType SimBlotter]> (<["live" := PyType LiveBlotter]> ∅)).
Proof.
  apply (registrations_commute "sim" "live" (PyType SimBlotter)
           (PyType LiveBlotter) ∅).
  - discriminate.
  - reflexivity.
  - reflexivity.
  - cbn. rewrite !elem_of_cons. auto.
  - cbn. rewrite !elem_of_cons. auto.
Defined.

(** Stacked decorators, [@register(a)] above [@register(b)] above a class
    definition: the inner decorator hands the class on unchanged, so the
    same class object ends up registered under both names and is what the
    stack returns. *)
Theorem stacked_decorators_register_both a b X d :
  a ≠ b →
  d !! a = None →
  d !! b = None →
  subclass_of_Blotter X →
  run (let! c := call_partial b [X] in call_partial a [c]) d
  = (Return X, <[a := X]> (<[b := X]> d))
  ∧ run (load a) (<[a := X]> (<[b := X]> d))
    = (Return X, <[a := X]> (<[b := X]> d))
  ∧ run (load b) (<[a := X]> (<[b := X]> d))
    = (Return X, <[a := X]> (<[b := X]> d)).
Proof.
  intros Hne Ha Hb HX. split_and!.
  - rewrite run_bind. change (call_partial b [X]) with (register b X).
    rewrite run_register_fresh_subclass by done.
    change (call_partial a [X]) with (register a X).
    by rewrite run_register_fresh_subclass
      by (done || by rewrite lookup_insert_ne).
  - apply run_load_present, lookup_insert_eq.
  - apply run_load_present. rewrite lookup_insert_ne by done.
    apply lookup_insert_eq.
Qed.

Lemma stacked_decorators_register_both_witness :
  run (let! c := call_partial "b" [PyType SimBlotter] in call_partial "a" [c])
      ∅
  = (Return (PyType SimBlotter),
     <["a" := PyType SimBlotter]> (<["b" := PyType SimBlotter]> ∅)).
Proof.
  refine (proj1 (stacked_decorators_register_both "a" "b" (PyType SimBlotter)
                   ∅ _ eq_refl eq_refl _)).
  - discriminate.
  - cbn. rewrite !elem_of_cons. auto.
Defined.

(** ** What the dictionary can hold *)



(** ** The names reported by [load] *)

(** The list in the error of [load] follows the registry: after a
    successful [register(n, A)] a failing [load(m)] reports [n] together
    with the names registered before, and after a successful
    [unregister(n)] it reports the names registered before except [n]. *)
Theorem load_options_follow_registry name m d :
  (∀ A, d !! name = None → subclass_of_Blotter A → m ≠ name →
     d !! m = None →
     ∃ d' options,
       run (register name A) d = (Return A, d')
       ∧ run (load m) d' = (Raise (Not_Found_load m options), d')
       ∧ options = sorted (name :: elements (dom d))
       ∧ ∀ n, n ∈ options ↔ n = name ∨ is_Some (d !! n))
  ∧ (∀ v, d !! name = Some v → d !! m = None →
     ∃ d' options,
       run (unregister name) d = (Return PyNone, d')
       ∧ run (load m) d' = (Raise (Not_Found_load m options), d')
       ∧ ∀ n, n ∈ options ↔ n ≠ name ∧ is_Some (d !! n)).
Proof.
  split.
  - intros A Hd HA Hm Hdm. eexists _, _. split_and!.
    + by apply run_register_fresh_subclass.
    + apply run_load_absent. by rewrite lookup_insert_ne.
    + apply sorted_Permutation. rewrite dom_insert_L.
      rewrite elements_union_singleton; [done|]. by apply not_elem_of_dom.
    + intros n. rewrite (proj2 (proj2 (sorted_keys_spec _))).
      rewrite lookup_insert_is_Some.
      destruct (decide (name = n)) as [->|]; intuition congruence.
  - intros v Hd Hdm. eexists _, _. split_and!.
    + by apply (run_unregister_present _ _ v).
    + apply run_load_absent.
      destruct (decide (name = m)) as [->|Hne];
        [apply lookup_delete_eq|by rewrite lookup_delete_ne].
    + intros n. rewrite (proj2 (proj2 (sorted_keys_spec _))).
      rewrite lookup_delete_is_Some. intuition congruence.
Qed.

Lemma load_options_follow_registry_witness :
  (∃ d' options,
     run (register "sim" (PyType SimBlotter))
         (<["live" := PyType LiveBlotter]> ∅)
     = (Return (PyType SimBlotter), d')
     ∧ run (load "missing") d' = (Raise (Not_Found_load "missing" options), d')
     ∧ options = sorted ("sim" :: elements
                           (dom (<["live" := PyType LiveBlotter]>
                                   (∅ : gmap string pyobj))))
     ∧ ∀ n, n ∈ options
            ↔ n = "sim"
              ∨ is_Some ((<["live" := PyType LiveBlotter]> ∅
                          : gmap string pyobj) !! n))
  ∧ (∃ d' options,
       run (unregister "live") (<["live" := PyType LiveBlotter]> ∅)
       = (Return PyNone, d')
       ∧ run (load "missing") d'
         = (Raise (Not_Found_load "missing" options), d')
       ∧ ∀ n, n ∈ options
              ↔ n ≠ "live"
                ∧ is_Some ((<["live" := PyType LiveBlotter]> ∅
                            : gmap string pyobj) !! n)).
Proof.
  split.
  - refine (proj1 (load_options_follow_registry "sim" "missing"
                     (<["live" := PyType LiveBlotter]> ∅))
              (PyType SimBlotter) eq_refl _ _ eq_refl).
    + cbn. rewrite !elem_of_cons. auto.
    + discriminate.
  - exact (proj2 (load_options_follow_registry "live" "missing"
                    (<["live" := PyType LiveBlotter]> ∅))
             (PyType LiveBlotter) eq_refl eq_refl).
Defined.

(** ** Two callers registering different names *)

Lemma turns_cons_same t s : turns t (t :: s) = S (turns t s).
Proof. unfold turns. by rewrite filter_cons_True. Qed.

Lemma turns_cons_other t u s : u ≠ t → turns t (u :: s) = turns t s.
Proof. intros H. unfold turns. by rewrite filter_cons_False. Qed.

Section two_names.
Context (n1 n2 : string) (A B : pyobj) (d : gmap string pyobj).
Hypothesis names_differ : n1 ≠ n2.
Hypothesis n1_free : d !! n1 = None.
Hypothesis n2_free : d !! n2 = None.
Hypothesis A_subclass : subclass_of_Blotter A.
Hypothesis B_subclass : subclass_of_Blotter B.

Lemma stored_after_lookup_ne k name x n (m : gmap string pyobj) :
  name ≠ n → stored_after k name x m !! n = m !! n.
Proof.
  intros Hne. destruct k as [|[|k]]; [done..|]. by apply lookup_insert_ne.
Qed.

Lemma step_register_after_first k k2 :
  step (register_after k n1 A)
       (stored_after k n1 A (stored_after k2 n2 B d))
  = (register_after (S k) n1 A,
     stored_after (S k) n1 A (stored_after k2 n2 B d)).
Proof.
  destruct k as [|[|k]]; [|done..]. cbn [register_after stored_after].
  apply step_register_free; [|done].
  by rewrite stored_after_lookup_ne.
Qed.

Lemma step_register_after_second k1 k :
  step (register_after k n2 B)
       (stored_after k1 n1 A (stored_after k n2 B d))
  = (register_after (S k) n2 B,
     stored_after k1 n1 A (stored_after (S k) n2 B d)).
Proof.
  destruct k as [|[|k]]; [| |done]; cbn [register_after stored_after].
  - apply step_register_free; [|done].
    by rewrite stored_after_lookup_ne.
  - rewrite step_storing. f_equal.
    destruct k1 as [|[|k1]]; [done..|]. cbn [stored_after].
    by apply insert_insert_ne.
Qed.

(** Where two such calls stand after any schedule: each has advanced by the
    number of its own turns, regardless of the turns of the other. *)
Lemma interleave_two_names schedule k1 k2 :
  interleave schedule (register_after k1 n1 A) (register_after k2 n2 B)
    (stored_after k1 n1 A (stored_after k2 n2 B d))
  = (register_after (k1 + turns First schedule) n1 A,
     register_after (k2 + turns Second schedule) n2 B,
     stored_after (k1 + turns First schedule) n1 A
       (stored_after (k2 + turns Second schedule) n2 B d)).
Proof.
  revert k1 k2. induction schedule as [|[|] s IH]; intros k1 k2.
  - cbn. by rewrite !Nat.add_0_r.
  - cbn [interleave]. rewrite step_register_after_first, IH.
    rewrite turns_cons_same, turns_cons_other by done.
    by rewrite Nat.add_succ_r.
  - cbn [interleave]. rewrite step_register_after_second, IH.
    rewrite turns_cons_same, turns_cons_other by done.
    by rewrite Nat.add_succ_r.
Qed.

End two_names.

(** Two calls of [register] for different free names, each with a subclass
    of [Blotter], overlapping in any way: as soon as the schedule has given
    each caller its two accesses, both have returned their candidate, both
    entries are stored, and each name loads its own candidate. *)
Theorem concurrent_register_different_names n1 n2 A B d schedule :
  n1 ≠ n2 →
  d !! n1 = None →
  d !! n2 = None →
  subclass_of_Blotter A →
  subclass_of_Blotter B →
  2 ≤ turns First schedule →
  2 ≤ turns Second schedule →
  interleave schedule (register n1 A) (register n2 B) d
  = (Done (Return A), Done (Return B), <[n1 := A]> (<[n2 := B]> d))
  ∧ run (load n1) (<[n1 := A]> (<[n2 := B]> d))
    = (Return A, <[n1 := A]> (<[n2 := B]> d))
  ∧ run (load n2) (<[n1 := A]> (<[n2 := B]> d))
    = (Return B, <[n1 := A]> (<[n2 := B]> d)).
Proof.
  intros Hne H1 H2 HA HB Hf Hs. split_and!.
  - pose proof (interleave_two_names n1 n2 A B d Hne H1 H2 HA HB
                  schedule 0 0) as H.
    cbn [register_after stored_after Nat.add] in H. rewrite H.
    destruct (turns First schedule) as [|[|k1]]; [lia..|].
    destruct (turns Second schedule) as [|[|k2]]; [lia..|].
    reflexivity.
  - apply run_load_present, lookup_insert_eq.
  - apply run_load_present. rewrite lookup_insert_ne by done.
    apply lookup_insert_eq.
Qed.

Lemma concurrent_register_different_names_witness :
  interleave [Second; First; Second; First]
    (register "sim" (PyType SimBlotter)) (register "live" (PyType LiveBlotter))
    ∅
  = (Done (Return (PyType SimBlotter)), Done (Return (PyType LiveBlotter)),
     <["sim" := PyType SimBlotter]> (<["live" := PyType LiveBlotter]> ∅)).
Proof.
  refine (proj1 (concurrent_register_different_names "sim" "live"
                   (PyType SimBlotter) (PyType LiveBlotter) ∅
                   [Second; First; Second; First] _ eq_refl eq_refl _ _ _ _)).
  - discriminate.
  - cbn. rewrite !elem_of_cons. auto.
  - cbn. rewrite !elem_of_cons. auto.
  - vm_compute. lia.
  - vm_compute. lia.
Defined.

(** ** Separate registries *)

Lemma run_in_other {A} l l' (p : prog A) h :
  l ≠ l' → (run_in l p h).2 !! l' = h !! l'.
Proof.
  intros Hne. unfold run_in. destruct (run p (h !!! l)) as [r d'].
  by apply list_lookup_insert_ne.
Qed.

Lemma run_in_at {A} l (p : prog A) h d :
  h !! l = Some d →
  run_in l p h = ((run p d).1, <[l := (run p d).2]> h).
Proof.
  intros Hl. unfold run_in. rewrite (list_lookup_total_correct _ _ _ Hl).
  by destruct (run p d).
Qed.

(** Two registries made by two calls of [_make_blotters_core] share nothing:
    whatever calls are made on the first, its dictionary is what those
    calls make of an empty one, the second is still empty (so [load] on it
    reports no names), a class registered in the second afterwards is loaded
    from the second and leaves the first as it was, and the dictionaries
    that existed before are untouched. *)
Theorem registries_are_separate h cs name :
  let '(c1, h1) := _make_blotters_core h in
  let '(c2, h2) := _make_blotters_core h1 in
  let h3 := after_all_in (core_blotters c1) cs h2 in
  core_blotters c1 ≠ core_blotters c2
  ∧ h3 !! core_blotters c1 = Some (after_all cs ∅)
  ∧ h3 !! core_blotters c2 = Some ∅
  ∧ core_load c2 name h3 = (Raise (Not_Found_load name []), h3)
  ∧ (∀ X, subclass_of_Blotter X →
       ∃ h4, core_register c2 name X h3 = (Return X, h4)
             ∧ core_load c2 name h4 = (Return X, h4)
             ∧ h4 !! core_blotters c1 = Some (after_all cs ∅))
  ∧ (∀ l, l < length h → h3 !! l = h !! l).
Proof.
  cbn [_make_blotters_core core_blotters core_load core_register].
  unfold after_all_in.
  assert (((h ++ [∅]) ++ [∅] : list (gmap string pyobj)) !! length h
          = Some ∅) as Hl1.
  { rewrite <- (assoc_L (++)). apply list_lookup_middle. done. }
  assert (((h ++ [∅]) ++ [∅] : list (gmap string pyobj))
            !! length (h ++ [∅]) = Some ∅) as Hl2.
  { by apply list_lookup_middle. }
  assert (length h ≠ length (h ++ [∅])) as Hne.
  { rewrite length_app. cbn. lia. }
  rewrite (list_lookup_total_correct _ _ _ Hl1).
  set (h3 := <[length h := after_all cs ∅]> ((h ++ [∅]) ++ [∅])).
  assert (h3 !! length h = Some (after_all cs ∅)) as H31.
  { apply list_lookup_insert_eq. rewrite !length_app. cbn. lia. }
  assert (h3 !! length (h ++ [∅]) = Some ∅) as H32.
  { unfold h3. by rewrite list_lookup_insert_ne. }
  split_and!; [done..| | |].
  - rewrite (run_in_at _ _ _ ∅) by done. cbn. f_equal.
    by apply list_insert_id.
  - intros X HX. eexists. split_and!.
    + rewrite (run_in_at _ _ _ ∅) by done.
      by rewrite run_register_fresh_subclass.
    + rewrite (run_in_at _ _ _ (<[name := X]> ∅)).
      * rewrite (run_load_present _ _ X) by apply lookup_insert_eq.
        cbn [fst snd]. f_equal. by rewrite list_insert_insert_eq.
      * apply list_lookup_insert_eq. by eapply lookup_lt_Some.
    + by rewrite list_lookup_insert_ne.
  - intros l Hl. unfold h3. rewrite list_lookup_insert_ne by lia.
    rewrite <- (assoc_L (++)). by apply lookup_app_l.
Qed.

Lemma registries_are_separate_witness :
  let '(c1, h1) := _make_blotters_core [] in
  let '(c2, h2) := _make_blotters_core h1 in
  let h3 :=
    after_all_in (core_blotters c1)
      [Register "sim" (Some (PyType LiveBlotter))] h2 in
  ∃ h4, core_register c2 "sim" (PyType SimBlotter) h3
        = (Return (PyType SimBlotter), h4)
        ∧ core_load c2 "sim" h4 = (Return (PyType SimBlotter), h4)
        ∧ h4 !! core_blotters c1
          = Some (after_all [Register "sim" (Some (PyType LiveBlotter))] ∅).
Proof.
  refine (proj1 (proj2 (proj2 (proj2 (proj2
    (registries_are_separate []
       [Register "sim" (Some (PyType LiveBlotter))] "sim")))))
    (PyType SimBlotter) _).
  cbn. rewrite !elem_of_cons. auto.
Defined.

(** ** Two callers unregistering the same name *)

Lemma interleave_Done {A B} schedule (r1 : outcome A) (r2 : outcome B) d :
  interleave schedule (Done r1) (Done r2) d = (Done r1, Done r2, d).
Proof. induction schedule as [|[|] s IH]; [done|apply IH..]. Qed.

Lemma step_unregister_present name d v :
  d !! name = Some v →
  step (unregister name) d = (Done (Return PyNone), delete name d).
Proof. intros Hd. cbn. by rewrite Hd. Qed.

Lemma step_unregister_absent name d :
  d !! name = None →
  step (unregister name) d = (Done (Raise (Not_Found_unregister name)), d).
Proof. intros Hd. cbn. by rewrite Hd. Qed.

(** Once the name is gone, the caller still to run is refused. *)
Lemma interleave_unregister_second_late {A} name schedule (r : outcome A) d :
  d !! name = None →
  1 ≤ turns Second schedule →
  interleave schedule (Done r) (unregister name) d
  = (Done r, Done (Raise (Not_Found_unregister name)), d).
Proof.
  intros Hd. induction schedule as [|[|] s IH]; intros Hs.
  - cbn in Hs. lia.
  - rewrite turns_cons_other in Hs by done. cbn [interleave step]. by apply IH.
  - cbn [interleave]. rewrite step_unregister_absent by done.
    apply interleave_Done.
Qed.

Lemma interleave_unregister_first_late {B} name schedule (r : outcome B) d :
  d !! name = None →
  1 ≤ turns First schedule →
  interleave schedule (unregister name) (Done r) d
  = (Done (Raise (Not_Found_unregister name)), Done r, d).
Proof.
  intros Hd. induction schedule as [|[|] s IH]; intros Hs.
  - cbn in Hs. lia.
  - cbn [interleave]. rewrite step_unregister_absent by done.
    apply interleave_Done.
  - rewrite turns_cons_other in Hs by done. cbn [interleave step]. by apply IH.
Qed.

(** Two calls of [unregister] for the same registered name, overlapping in
    any way: the single access of line 86 decides, so the caller whose turn
    comes first removes the entry and returns, the other raises the
    Not-Found error, and the entry is removed once. *)
Theorem concurrent_unregister_same_name name d v t schedule :
  d !! name = Some v →
  1 ≤ turns First (t :: schedule) →
  1 ≤ turns Second (t :: schedule) →
  interleave (t :: schedule) (unregister name) (unregister name) d
  = match t with
    | First =>
        (Done (Return PyNone), Done (Raise (Not_Found_unregister name)),
         delete name d)
    | Second =>
        (Done (Raise (Not_Found_unregister name)), Done (Return PyNone),
         delete name d)
    end.
Proof.
  intros Hd Hf Hs. destruct t; cbn [interleave];
    rewrite (step_unregister_present _ _ v) by done.
  - rewrite turns_cons_other in Hs by done.
    apply interleave_unregister_second_late; [apply lookup_delete_eq|done].
  - rewrite turns_cons_other in Hf by done.
    apply interleave_unregister_first_late; [apply lookup_delete_eq|done].
Qed.

Lemma concurrent_unregister_same_name_witness :
  interleave [Second; First; First] (unregister "sim") (unregister "sim")
    (<["sim" := PyType SimBlotter]> ∅)
  = (Done (Raise (Not_Found_unregister "sim")), Done (Return PyNone),
     delete "sim" (<["sim" := PyType SimBlotter]> ∅)).
Proof.
  refine (concurrent_unregister_same_name "sim"
            (<["sim" := PyType SimBlotter]> ∅) (PyType SimBlotter)
            Second [First; First] eq_refl _ _).
  - vm_compute. lia.
  - vm_compute. lia.
Defined.
